(** * diff_cover.snippets: source snippets around violation lines

    A shallow embedding of [diff_cover/snippets.py] (class [Snippet]) and
    the properties of its range sweep, its line remapping and its
    constructor.

    Python integers are [Z], Python lists are [list], [str] is [string].
    A call that may raise returns a [result]; the file system read by
    [load_snippets] is a partial function from paths to contents.
    pygments is outside the embedding: of [html] only the arguments it
    builds the formatter with are embedded, and [style_defs] and
    [load_snippets_html], whose results are pygments', are not. *)

From Stdlib Require Import ZArith List Bool String Ascii Lia Sorted.
Import ListNotations.
Open Scope Z_scope.

(** ** Python built-ins used by the module *)

Module Py.

(** Exceptions raised by the embedded code. *)
Inductive exn : Type :=
| ValueError (msg : string)
| IOError.

(** The outcome of a call: a value, or a raised exception. *)
Inductive result (A : Type) : Type :=
| Ok (a : A)
| Raise (e : exn).
Arguments Ok {A} a.
Arguments Raise {A} e.

Definition bind {A B} (m : result A) (k : A -> result B) : result B :=
  match m with
  | Ok a => k a
  | Raise e => Raise e
  end.

(** [[f x for x in l]] where [f] may raise: the first exception wins. *)
Fixpoint comprehension {A B} (f : A -> result B) (l : list A) : result (list B) :=
  match l with
  | [] => Ok []
  | x :: xs => bind (f x) (fun y => bind (comprehension f xs) (fun ys => Ok (y :: ys)))
  end.

(** [x in l] on a list of integers. *)
Definition contains (l : list Z) (x : Z) : bool := existsb (Z.eqb x) l.

(** [range(lo, hi)]. *)
Definition range (lo hi : Z) : list Z :=
  map (fun i => lo + Z.of_nat i) (seq 0 (Z.to_nat (hi - lo))).

(** The line feed character. *)
Definition LF : ascii := ascii_of_nat 10.

(** [s.split('\n')]: never empty, a trailing line feed gives a last
    empty segment. *)
Fixpoint split_lines (s : string) : list string :=
  match s with
  | EmptyString => [EmptyString]
  | String c rest =>
      if Ascii.eqb c LF then EmptyString :: split_lines rest
      else match split_lines rest with
           | [] => [String c EmptyString]
           | seg :: segs => String c seg :: segs
           end
  end.

(** ["\n".join(l)]. *)
Definition join_lines (l : list string) : string :=
  String.concat (String LF EmptyString) l.

(** A slice bound as Python normalises it against a length. *)
Definition slice_index (len i : Z) : Z :=
  if i <? 0 then Z.max 0 (i + len) else Z.min i len.

(** [l[a:b]]. *)
Definition slice {A} (l : list A) (a b : Z) : list A :=
  let len := Z.of_nat (List.length l) in
  let a' := slice_index len a in
  let b' := slice_index len b in
  firstn (Z.to_nat (b' - a')) (skipn (Z.to_nat a') l).

End Py.

(** ** The class [Snippet] *)

Module Snippet.
Import Py.

(** Number of extra lines to include before and after each snippet. *)
Definition NUM_CONTEXT_LINES : Z := 4.

(** Maximum distance between two violations within a snippet. *)
Definition MAX_GAP_IN_SNIPPET : Z := 4.

(** The instance attributes. *)
Record t : Type := Build {
  _src_str : string;
  _src_filename : string;
  _start_line : Z;
  _violation_lines : list Z
}.

(** [Snippet.__init__]. *)
Definition __init__ (src_str src_filename : string)
           (start_line : Z) (violation_lines : list Z) : result t :=
  if start_line <? 1 then
    Raise (ValueError "Start line must be >= 1"%string)
  else
    Ok (Build src_str src_filename start_line violation_lines).

(** [Snippet.text]. *)
Definition text (self : t) : string := _src_str self.

(** [Snippet.line_range]. *)
Definition line_range (self : t) : Z * Z :=
  let num_lines := Z.of_nat (List.length (split_lines (_src_str self))) in
  let end_line := _start_line self + num_lines - 1 in
  (_start_line self, end_line).

(** The variables of the loop of [_snippet_ranges].  [current_range] is
    the pair the source keeps, [None] standing for Python's [None]. *)
Record loop_state : Type := State {
  current_range : option Z * option Z;
  lines_since_last_violation : Z;
  snippet_ranges : list (Z * Z)
}.

Definition initial : loop_state := State (None, None) 0 [].

(** One iteration of the [for line_num in range(1, num_src_lines + 1)]
    loop: the [if]/[elif] on [current_range], then the increment of the
    counter. *)
Definition loop_body (num_src_lines : Z) (violation_lines : list Z)
           (st : loop_state) (line_num : Z) : loop_state :=
  let st' :=
    match current_range st with
    | (None, _) =>
        if contains violation_lines line_num then
          let snippet_start := Z.max 1 (line_num - NUM_CONTEXT_LINES) in
          State (Some snippet_start, None) 0 (snippet_ranges st)
        else st
    | (Some start, None) =>
        if contains violation_lines line_num then
          State (current_range st) 0 (snippet_ranges st)
        else if lines_since_last_violation st >? MAX_GAP_IN_SNIPPET then
          let snippet_end := line_num - lines_since_last_violation st in
          let snippet_end :=
            Z.min num_src_lines (snippet_end + NUM_CONTEXT_LINES) in
          State (None, None) (lines_since_last_violation st)
                (snippet_ranges st ++ [(start, snippet_end)])
        else st
    | (Some _, Some _) => st
    end in
  State (current_range st') (lines_since_last_violation st' + 1)
        (snippet_ranges st').

(** The state when the loop ends. *)
Definition sweep (num_src_lines : Z) (violation_lines : list Z) : loop_state :=
  fold_left (loop_body num_src_lines violation_lines)
            (range 1 (num_src_lines + 1)) initial.

(** [Snippet._snippet_ranges]: the loop, then the range left open. *)
Definition _snippet_ranges (num_src_lines : Z) (violation_lines : list Z)
  : list (Z * Z) :=
  let st := sweep num_src_lines violation_lines in
  match current_range st with
  | (Some start, None) => snippet_ranges st ++ [(start, num_src_lines)]
  | _ => snippet_ranges st
  end.

(** [Snippet._shift_lines]: the comprehension
    [[line_num - start_line + 1 for line_num in line_num_list
      if line_num >= start_line]]. *)
Definition _shift_lines (line_num_list : list Z) (start_line : Z) : list Z :=
  flat_map (fun line_num =>
              if line_num >=? start_line
              then [line_num - start_line + 1] else [])
           line_num_list.

(** [Snippet.load_snippets], reading [src_path] in the file system [fs]
    ([None]: the file could not be loaded). *)
Definition load_snippets (fs : string -> option string)
           (src_path : string) (violation_lines : list Z) : result (list t) :=
  match fs src_path with
  | None => Raise IOError
  | Some contents =>
      let src_lines := split_lines contents in
      let ranges :=
        _snippet_ranges (Z.of_nat (List.length src_lines)) violation_lines in
      comprehension
        (fun '(start, end_) =>
           __init__ (join_lines (slice src_lines (start - 1) end_))
                    src_path start violation_lines)
        ranges
  end.

(** The CSS class of the snippet's [div]. *)
Definition DIV_CSS_CLASS : string := "snippet".

(** The keyword arguments [html] builds pygments' [HtmlFormatter] with. *)
Record HtmlFormatter : Type := Formatter {
  cssclass : string;
  linenos : bool;
  linenostart : Z;
  hl_lines : list Z;
  lineanchors : string
}.

(** The formatter [Snippet.html] builds: the call
    [HtmlFormatter(cssclass=..., linenos=True, linenostart=...,
    hl_lines=..., lineanchors=...)] with its arguments evaluated. *)
Definition html_formatter (self : t) : HtmlFormatter :=
  Formatter DIV_CSS_CLASS true (_start_line self)
            (_shift_lines (_violation_lines self) (_start_line self))
            (_src_filename self).

End Snippet.

Import Py Snippet.

(** ** Specification vocabulary *)

(** Line [x] lies in the range [r] (both ends included). *)
Definition within (r : Z * Z) (x : Z) : Prop := fst r <= x <= snd r.

(** Two ranges share a line. *)
Definition overlap (r1 r2 : Z * Z) : Prop :=
  exists x, within r1 x /\ within r2 x.

(** No line belongs to two ranges of the list. *)
Definition pairwise_disjoint (rs : list (Z * Z)) : Prop :=
  forall i j r1 r2, i <> j ->
    nth_error rs i = Some r1 -> nth_error rs j = Some r2 -> ~ overlap r1 r2.

(** Ascending by start. *)
Definition sorted_by_start (rs : list (Z * Z)) : Prop :=
  StronglySorted (fun a b => fst a <= fst b) rs.

(** How an earlier range of the result stands to a later one: it starts
    and ends before it, and reaches at most two lines past its start. *)
Definition precedes (a b : Z * Z) : Prop :=
  fst a < fst b /\ snd a < snd b /\ snd a <= fst b + 2.

(** The range [r] was built around the violations from [f0] to [fl]:
    [f0] opened it, [fl] is the last violation before it was closed. *)
Record group (n : Z) (V : list Z) (r : Z * Z) (f0 fl : Z) : Prop := {
  group_bounds : 1 <= f0 /\ f0 <= fl /\ fl <= n;
  group_first : In f0 V;
  group_last : In fl V;
  group_start : fst r = Z.max 1 (f0 - NUM_CONTEXT_LINES);
  group_end : snd r = Z.min n (fl + NUM_CONTEXT_LINES);
  group_lead : forall x, fst r <= x < f0 -> ~ In x V;
  group_trail :
    forall x, fl < x <= fl + MAX_GAP_IN_SNIPPET + 1 -> x <= n -> ~ In x V;
  group_dense :
    forall x, f0 <= x <= fl ->
      exists y, In y V /\ x <= y <= x + MAX_GAP_IN_SNIPPET /\ y <= fl
}.

Definition good (n : Z) (V : list Z) (r : Z * Z) : Prop :=
  exists f0 fl, group n V r f0 fl.

(** Every violation up to line [k] is in the range still open, or at
    least [NUM_CONTEXT_LINES] before the end of a stored range. *)
Definition covered (V : list Z) (k : Z) (open : Z -> Prop)
           (rs : list (Z * Z)) : Prop :=
  forall x, In x V -> 1 <= x <= k ->
    open x \/
    exists r, In r rs /\ fst r <= x /\ x + NUM_CONTEXT_LINES <= snd r.

(** The loop invariant after line [k]: no range is open, or one is, begun
    at violation [f0], with [fl] the last violation seen. *)
Inductive Inv (n : Z) (V : list Z) (k : Z) : loop_state -> Prop :=
| Inv_idle c rs :
    Forall (good n V) rs ->
    StronglySorted precedes rs ->
    Forall (fun r => snd r + 1 <= k) rs ->
    covered V k (fun _ => False) rs ->
    Inv n V k (State (None, None) c rs)
| Inv_active s c rs f0 fl :
    Forall (good n V) rs ->
    StronglySorted precedes rs ->
    Forall (fun r => snd r + 2 <= f0) rs ->
    c = k - fl + 1 ->
    1 <= c <= MAX_GAP_IN_SNIPPET + 1 ->
    1 <= f0 <= fl ->
    In f0 V -> In fl V ->
    s = Z.max 1 (f0 - NUM_CONTEXT_LINES) ->
    (forall x, s <= x < f0 -> ~ In x V) ->
    (forall x, fl < x <= k -> ~ In x V) ->
    (forall x, f0 <= x <= fl ->
       exists y, In y V /\ x <= y <= x + MAX_GAP_IN_SNIPPET /\ y <= fl) ->
    covered V k (fun x => f0 <= x <= fl) rs ->
    Inv n V k (State (Some s, None) c rs).

(** The string holds no line feed. *)
Fixpoint no_LF (s : string) : Prop :=
  match s with
  | EmptyString => True
  | String c rest => Ascii.eqb c LF = false /\ no_LF rest
  end.

(** The number of line feeds of the string. *)
Fixpoint count_LF (s : string) : nat :=
  match s with
  | EmptyString => 0%nat
  | String c rest => ((if Ascii.eqb c LF then 1 else 0) + count_LF rest)%nat
  end.

(** The lines of the file from [start] to [end_], numbered from 1. *)
Definition file_lines (src_lines : list string) (r : Z * Z) : list string :=
  slice src_lines (fst r - 1) (snd r).

(** Unfolds the two constants of the class, for [lia]. *)
Ltac consts := unfold NUM_CONTEXT_LINES, MAX_GAP_IN_SNIPPET in *.

(** ** The tests of the repository, on the embedding *)


Example ranges_one_snippet :
  _snippet_ranges 10 [2; 3; 4; 5] = [(1, 9)].
Proof. reflexivity. Qed.

Example ranges_multiple_snippets :
  _snippet_ranges 100 [30; 31; 32; 35; 36; 60; 62] = [(26, 40); (56, 66)].
Proof. reflexivity. Qed.

Example ranges_no_lead_line : _snippet_ranges 10 [1; 2; 3] = [(1, 7)].
Proof. reflexivity. Qed.

Example ranges_no_lag_line : _snippet_ranges 10 [9; 10] = [(5, 10)].
Proof. reflexivity. Qed.

Example ranges_one_line_file : _snippet_ranges 1 [1] = [(1, 1)].
Proof. reflexivity. Qed.

Example ranges_close_groups :
  _snippet_ranges 100 [10; 16] = [(6, 14); (12, 20)].
Proof. reflexivity. Qed.

(** ** Auxiliary lemmas *)

Lemma contains_In (V : list Z) (x : Z) : contains V x = true <-> In x V.
Proof.
  unfold contains. rewrite existsb_exists. split.
  - intros (y & Hy & E). apply Z.eqb_eq in E. now subst.
  - intros H. exists x. split; [assumption | apply Z.eqb_refl].
Qed.

Lemma contains_not_In (V : list Z) (x : Z) : contains V x = false <-> ~ In x V.
Proof.
  rewrite <- contains_In. destruct (contains V x); split; congruence.
Qed.

Lemma range_nonpositive (n : Z) : n <= 0 -> range 1 (n + 1) = [].
Proof.
  intros H. unfold range.
  replace (Z.to_nat (n + 1 - 1)) with 0%nat by lia. reflexivity.
Qed.

Lemma range_snoc (m : Z) :
  0 <= m -> range 1 (m + 1 + 1) = range 1 (m + 1) ++ [m + 1].
Proof.
  intros H. unfold range.
  replace (Z.to_nat (m + 1 + 1 - 1)) with (S (Z.to_nat m)) by lia.
  replace (Z.to_nat (m + 1 - 1)) with (Z.to_nat m) by lia.
  rewrite seq_S, map_app. f_equal. cbn [map Nat.add].
  rewrite Z2Nat.id by lia. f_equal. lia.
Qed.

(** Induction over the lines of the loop. *)
Lemma fold_range_ind {A} (f : A -> Z -> A) (P : Z -> A -> Prop) (n : Z) (a : A) :
  0 <= n ->
  P 0 a ->
  (forall k s, 0 <= k < n -> P k s -> P (k + 1) (f s (k + 1))) ->
  P n (fold_left f (range 1 (n + 1)) a).
Proof.
  intros Hn H0 Hstep.
  assert (G : forall m, 0 <= m -> m <= n ->
                        P m (fold_left f (range 1 (m + 1)) a)).
  { intros m Hm. pattern m. apply natlike_ind; [ | | exact Hm].
    - intros _. exact H0.
    - intros x Hx IH Hle. unfold Z.succ.
      rewrite range_snoc by exact Hx. rewrite fold_left_app. simpl.
      apply Hstep; [lia | apply IH; lia]. }
  apply G; lia.
Qed.

Lemma StronglySorted_snoc {A} (R : A -> A -> Prop) (l : list A) (x : A) :
  StronglySorted R l -> Forall (fun a => R a x) l ->
  StronglySorted R (l ++ [x]).
Proof.
  induction 1 as [ | a l Hl IH Ha]; intros Hx; simpl.
  - constructor; constructor.
  - inversion Hx; subst. constructor.
    + apply IH. assumption.
    + apply Forall_app. split; [assumption | constructor; [assumption | constructor]].
Qed.

(** ** The loop invariant *)

Lemma good_start_le n V r f0 fl :
  group n V r f0 fl -> 1 <= fst r /\ fst r <= f0 /\ fl <= snd r /\ snd r <= n.
Proof.
  intros [Hb _ _ Hs He _ _ _]. consts. lia.
Qed.

Lemma Inv_initial n V : Inv n V 0 initial.
Proof.
  apply Inv_idle; [constructor | constructor | constructor | ].
  intros x _ Hx. lia.
Qed.

Lemma loop_body_Inv n V k st :
  0 <= k < n -> Inv n V k st -> Inv n V (k + 1) (loop_body n V st (k + 1)).
Proof.
  intros Hk HI.
  destruct HI as [c rs Hg Hs Hc Hcov
                 | s c rs f0 fl Hg Hs Hb Ec Hc Hf Hf0 Hfl Es Hlead Htrail Hdense Hcov];
    unfold loop_body;
    cbn [current_range lines_since_last_violation snippet_ranges];
    destruct (contains V (k + 1)) eqn:E;
    [ apply contains_In in E | apply contains_not_In in E
    | apply contains_In in E | apply contains_not_In in E ].
  - (* no range open, line k+1 is a violation: a range is opened *)
    cbn [current_range lines_since_last_violation snippet_ranges].
    rewrite Forall_forall in Hc.
    apply Inv_active with (f0 := k + 1) (fl := k + 1); try assumption.
    + apply Forall_forall. intros r Hr. specialize (Hc r Hr). lia.
    + lia.
    + consts. lia.
    + lia.
    + reflexivity.
    + intros x Hx Hin.
      destruct (Hcov x Hin) as [[] | (r & Hr & H1 & H2)]; [consts; lia | ].
      specialize (Hc r Hr). consts. lia.
    + intros x Hx. lia.
    + intros x Hx. exists (k + 1). consts. repeat split; try assumption; lia.
    + intros x Hin Hx.
      destruct (Z.eq_dec x (k + 1)) as [-> | Hne]; [left; lia | ].
      destruct (Hcov x Hin) as [[] | H]; [lia | right; exact H].
  - (* no range open, line k+1 is not a violation *)
    apply Inv_idle; try assumption.
    + eapply Forall_impl; [ | exact Hc]. cbn beta. intros r Hr. lia.
    + intros x Hin Hx.
      assert (x <> k + 1) by (intros ->; contradiction).
      apply Hcov; [assumption | lia].
  - (* a range is open, line k+1 is a violation: the counter restarts *)
    cbn [current_range lines_since_last_violation snippet_ranges].
    apply Inv_active with (f0 := f0) (fl := k + 1); try assumption.
    + lia.
    + consts. lia.
    + lia.
    + intros x Hx. lia.
    + intros x Hx. destruct (Z_le_gt_dec x fl) as [Hle | Hgt].
      * destruct (Hdense x) as (y & Hy & H1 & H2); [lia | ].
        exists y. repeat split; try assumption; lia.
      * exists (k + 1). consts. repeat split; try assumption; lia.
    + intros x Hin Hx.
      destruct (Z.eq_dec x (k + 1)) as [-> | Hne]; [left; lia | ].
      destruct (Hcov x Hin) as [H | H]; [lia | left; lia | right; exact H].
  - (* a range is open, line k+1 is not a violation *)
    destruct (c >? MAX_GAP_IN_SNIPPET) eqn:G;
      cbn [current_range lines_since_last_violation snippet_ranges].
    + (* the gap is too long: the range is closed and stored *)
      apply Z.gtb_lt in G.
      assert (Efl : fl = k - MAX_GAP_IN_SNIPPET) by (consts; lia).
      set (r := (s, Z.min n (k + 1 - c + NUM_CONTEXT_LINES))).
      assert (Gr : group n V r f0 fl).
      { unfold r. constructor; cbn [fst snd]; try assumption.
        - lia.
        - f_equal. lia.
        - intros x Hx Hn. destruct (Z.eq_dec x (k + 1)) as [-> | Hne];
            [assumption | apply Htrail; consts; lia]. }
      rewrite Forall_forall in Hb.
      apply Inv_idle.
      * apply Forall_app. split; [assumption | ].
        constructor; [exists f0, fl; exact Gr | constructor].
      * apply StronglySorted_snoc; [assumption | ].
        apply Forall_forall. intros r' Hr'.
        specialize (Hb r' Hr').
        rewrite Forall_forall in Hg. destruct (Hg r' Hr') as (g0 & gl & Gr').
        destruct Gr' as [Hb' _ _ Hs' He' _ _ _].
        unfold precedes, r. cbn [fst snd]. consts. lia.
      * apply Forall_app. split.
        -- apply Forall_forall. intros r' Hr'. specialize (Hb r' Hr'). lia.
        -- constructor; [ | constructor]. unfold r. cbn [snd]. consts. lia.
      * intros x Hin Hx.
        assert (x <> k + 1) by (intros ->; contradiction).
        destruct (Hcov x Hin) as [H1 | (r' & Hr' & H1 & H2)]; [lia | | ].
        -- right. exists r. split; [apply in_or_app; right; left; reflexivity | ].
           unfold r. cbn [fst snd]. consts. lia.
        -- right. exists r'. split; [apply in_or_app; left; assumption | ].
           split; assumption.
    + (* the gap may still be bridged *)
      assert (G' : c <= MAX_GAP_IN_SNIPPET).
      { destruct (Z.gtb_spec c MAX_GAP_IN_SNIPPET); [discriminate | lia]. }
      apply Inv_active with (f0 := f0) (fl := fl); try assumption.
      * lia.
      * lia.
      * intros x Hx. destruct (Z.eq_dec x (k + 1)) as [-> | Hne];
          [assumption | apply Htrail; lia].
      * intros x Hin Hx.
        assert (x <> k + 1) by (intros ->; contradiction).
        apply Hcov; [assumption | lia].
Qed.

Lemma sweep_Inv n V : 0 <= n -> Inv n V n (sweep n V).
Proof.
  intros Hn. unfold sweep.
  apply (fold_range_ind (loop_body n V) (Inv n V)); [assumption | | ].
  - apply Inv_initial.
  - intros k s Hk. apply loop_body_Inv. assumption.
Qed.

Lemma sweep_nonpositive n V : n <= 0 -> sweep n V = initial.
Proof.
  intros Hn. unfold sweep. rewrite range_nonpositive by assumption. reflexivity.
Qed.

(** ** What [_snippet_ranges] returns *)

Lemma snippet_ranges_nonpositive n V : n <= 0 -> _snippet_ranges n V = [].
Proof.
  intros Hn. unfold _snippet_ranges.
  rewrite sweep_nonpositive by assumption. reflexivity.
Qed.

(** Every returned range is built around a group of violations, the list
    is ordered, and every violation of the file is in a range. *)
Lemma snippet_ranges_spec n V :
  Forall (good n V) (_snippet_ranges n V) /\
  StronglySorted precedes (_snippet_ranges n V) /\
  (forall x, In x V -> 1 <= x <= n ->
     exists r, In r (_snippet_ranges n V) /\ within r x).
Proof.
  destruct (Z_lt_le_dec n 0) as [Hneg | Hn].
  { rewrite snippet_ranges_nonpositive by lia.
    repeat split; try constructor. intros x _ Hx. lia. }
  unfold _snippet_ranges.
  destruct (sweep_Inv n V Hn)
    as [c rs Hg Hs Hc Hcov
       | s c rs f0 fl Hg Hs Hb Ec Hc Hf Hf0 Hfl Es Hlead Htrail Hdense Hcov];
    cbn [current_range snippet_ranges].
  - repeat split; try assumption.
    intros x Hin Hx.
    destruct (Hcov x Hin Hx) as [[] | (r & Hr & H1 & H2)].
    exists r. split; [assumption | ]. unfold within. consts. lia.
  - assert (Gr : group n V (s, n) f0 fl).
    { constructor; cbn [fst snd]; try assumption.
      - lia.
      - consts. lia.
      - intros x Hx Hxn. apply Htrail. lia. }
    rewrite Forall_forall in Hb.
    repeat split.
    + apply Forall_app. split; [assumption | ].
      constructor; [exists f0, fl; exact Gr | constructor].
    + apply StronglySorted_snoc; [assumption | ].
      apply Forall_forall. intros r' Hr'. specialize (Hb r' Hr').
      rewrite Forall_forall in Hg. destruct (Hg r' Hr') as (g0 & gl & Gr').
      destruct Gr' as [Hb' _ _ Hs' He' _ _ _].
      unfold precedes. cbn [fst snd]. consts. lia.
    + intros x Hin Hx.
      destruct (Hcov x Hin Hx) as [H1 | (r' & Hr' & H1 & H2)].
      * exists (s, n). split; [apply in_or_app; right; left; reflexivity | ].
        unfold within. cbn [fst snd]. consts. lia.
      * exists r'. split; [apply in_or_app; left; assumption | ].
        unfold within. consts. lia.
Qed.

(** A violation lying in a returned range is one of its group. *)
Lemma group_member n V r f0 fl x :
  group n V r f0 fl -> In x V -> within r x -> f0 <= x <= fl.
Proof.
  intros [Hb _ _ Hs He Hlead Htrail _] Hin [H1 H2].
  split.
  - destruct (Z_le_gt_dec f0 x) as [ | Hgt]; [assumption | ].
    exfalso. apply (Hlead x); [lia | assumption].
  - destruct (Z_le_gt_dec x fl) as [ | Hgt]; [assumption | ].
    exfalso. apply (Htrail x); [consts; lia | lia | assumption].
Qed.

Lemma In_ranges_good n V r : In r (_snippet_ranges n V) -> good n V r.
Proof.
  intros Hr. destruct (snippet_ranges_spec n V) as (Hg & _ & _).
  rewrite Forall_forall in Hg. apply Hg. assumption.
Qed.

(** The result depends on the violation list through membership only. *)
Lemma loop_body_ext n V V' :
  (forall x, In x V <-> In x V') ->
  forall st line, loop_body n V st line = loop_body n V' st line.
Proof.
  intros HV st line.
  assert (E : contains V line = contains V' line).
  { destruct (contains V' line) eqn:E'.
    - apply contains_In. apply HV. apply contains_In. assumption.
    - apply contains_not_In. rewrite HV. apply contains_not_In. assumption. }
  unfold loop_body. rewrite E. reflexivity.
Qed.

Lemma fold_left_ext {A B} (f g : A -> B -> A) :
  (forall a b, f a b = g a b) ->
  forall l a, fold_left f l a = fold_left g l a.
Proof.
  intros H l. induction l as [ | b l IH]; intros a; simpl.
  - reflexivity.
  - rewrite H. apply IH.
Qed.

Lemma snippet_ranges_ext n V V' :
  (forall x, In x V <-> In x V') ->
  _snippet_ranges n V = _snippet_ranges n V'.
Proof.
  intros HV. unfold _snippet_ranges, sweep.
  rewrite (fold_left_ext _ _ (loop_body_ext n V V' HV)). reflexivity.
Qed.

Lemma StronglySorted_nth_error {A} (R : A -> A -> Prop) (l : list A) :
  StronglySorted R l ->
  forall i j a b, (i < j)%nat ->
    nth_error l i = Some a -> nth_error l j = Some b -> R a b.
Proof.
  induction 1 as [ | x l Hl IH Hx]; intros i j a b Hij Ha Hb.
  - destruct i; discriminate.
  - destruct j as [ | j]; [lia | ]. destruct i as [ | i]; simpl in Ha, Hb.
    + injection Ha as <-. rewrite Forall_forall in Hx.
      apply Hx. eapply nth_error_In. eassumption.
    + apply (IH i j); [lia | assumption | assumption].
Qed.

Lemma StronglySorted_weaken {A} (R R' : A -> A -> Prop) (l : list A) :
  (forall a b, R a b -> R' a b) -> StronglySorted R l -> StronglySorted R' l.
Proof.
  intros HR. induction 1 as [ | x l Hl IH Hx]; constructor.
  - assumption.
  - eapply Forall_impl; [ | exact Hx]. intros b. apply HR.
Qed.

(** ** The claims *)

(** C1, as stated, does not hold: with 100 lines and violations on lines
    10 and 16 the returned ranges are (6, 14) and (12, 20), and lines 12
    to 14 belong to both. *)
Lemma C1_ranges_overlap :
  ~ (forall n V, 0 <= n ->
       pairwise_disjoint (_snippet_ranges n V) /\
       sorted_by_start (_snippet_ranges n V)).
Proof.
  intros H. destruct (H 100 [10; 16]) as [Hd _]; [lia | ].
  apply (Hd 0%nat 1%nat (6, 14) (12, 20));
    [discriminate | reflexivity | reflexivity | ].
  exists 12. unfold within. cbn. lia.
Qed.

(** Two ranges of the result, one before the other, and the violations
    they were built around: the earlier ends [NUM_CONTEXT_LINES] after its
    last violation, the later starts [NUM_CONTEXT_LINES] before its first
    one, and more than [MAX_GAP_IN_SNIPPET] lines lie between the two. *)
Lemma neighbours_shape n V a b a0 al b0 bl :
  precedes a b -> group n V a a0 al -> group n V b b0 bl ->
  snd a = al + NUM_CONTEXT_LINES /\
  fst b = b0 - NUM_CONTEXT_LINES /\
  al + MAX_GAP_IN_SNIPPET + 2 <= b0.
Proof.
  intros (H1 & H2 & H3) [Ba _ _ Sa Ea _ _ _] [Bb _ _ Sb Eb _ _ _].
  consts. lia.
Qed.

(** C1, amended: the returned ranges are sorted ascending by start, and
    strictly so, by start and by end; a range reaches at most two lines
    past the start of a later one (they share at most three lines), two
    ranges that are not neighbours in the list share no line, and two
    ranges share a line exactly when 5 to 7 lines without violation
    separate a violation of the earlier from a violation of the later. *)
Theorem C1_ranges_sorted_overlap_bounded n V i j a b :
  (i < j)%nat ->
  nth_error (_snippet_ranges n V) i = Some a ->
  nth_error (_snippet_ranges n V) j = Some b ->
  sorted_by_start (_snippet_ranges n V) /\
  fst a < fst b /\ snd a < snd b /\ snd a <= fst b + 2 /\
  ((i + 1 < j)%nat -> ~ overlap a b) /\
  (overlap a b <->
   exists f g,
     In f V /\ In g V /\ within a f /\ within b g /\
     (forall x, f < x < g -> ~ In x V) /\
     5 <= g - f - 1 <= 7).
Proof.
  intros Hij Ha Hb.
  destruct (snippet_ranges_spec n V) as (Hg & Hs & Hcov).
  pose proof (StronglySorted_nth_error _ _ Hs) as Hnth.
  destruct (Hnth i j a b Hij Ha Hb) as (H1 & H2 & H3).
  rewrite Forall_forall in Hg.
  destruct (Hg a (nth_error_In _ _ Ha)) as (a0 & al & Ga).
  destruct (Hg b (nth_error_In _ _ Hb)) as (b0 & bl & Gb).
  pose proof (good_start_le _ _ _ _ _ Ga) as La.
  pose proof (good_start_le _ _ _ _ _ Gb) as Lb.
  destruct (neighbours_shape _ _ _ _ _ _ _ _ (conj H1 (conj H2 H3)) Ga Gb)
    as (Ea & Eb & Hgap).
  assert (Hfar : (i + 1 < j)%nat -> ~ overlap a b).
  { intros Hlt (x & [Hx1 Hx2] & [Hx3 Hx4]).
    destruct (nth_error (_snippet_ranges n V) (S i)) as [c | ] eqn:Hc.
    - destruct (Hg c (nth_error_In _ _ Hc)) as (c0 & cl & Gc).
      assert (Pac : precedes a c) by (apply (Hnth i (S i)); [lia | assumption | assumption]).
      assert (Pcb : precedes c b) by (apply (Hnth (S i) j); [lia | assumption | assumption]).
      destruct (neighbours_shape _ _ _ _ _ _ _ _ Pac Ga Gc) as (A1 & A2 & A3).
      destruct (neighbours_shape _ _ _ _ _ _ _ _ Pcb Gc Gb) as (B1 & B2 & B3).
      destruct Gc as [Hbc _ _ _ _ _ _ _]. consts. lia.
    - apply nth_error_None in Hc.
      assert (j < List.length (_snippet_ranges n V))%nat
        by (apply nth_error_Some; congruence).
      lia. }
  split.
  { apply (StronglySorted_weaken precedes); [ | assumption].
    intros x y (Hxy & _). lia. }
  do 4 (split; [assumption | ]).
  split.
  - (* a shared line: the last violation of [a] and the first of [b] *)
    intros Hov.
    assert (Ej : j = S i).
    { destruct (Nat.eq_dec j (S i)) as [ | Hne]; [assumption | exfalso].
      apply Hfar; [lia | assumption]. }
    exists al, b0.
    destruct Ga as [Ba Va0 Val Sa Ena Leada Traila Densea] eqn:EGa.
    destruct Gb as [Bb Vb0 Vbl Sb Enb Leadb Trailb Denseb] eqn:EGb.
    split; [assumption | ]. split; [assumption | ].
    split; [unfold within; lia | ]. split; [unfold within; lia | ].
    split.
    + intros x Hx Hin.
      destruct (Hcov x Hin) as (c & Hc & Hwc); [lia | ].
      destruct (In_nth_error _ _ Hc) as (p & Hp).
      destruct (Hg c Hc) as (c0 & cl & Gc).
      destruct Hwc as [Hw1 Hw2].
      destruct (lt_eq_lt_dec p i) as [[Hlt | ->] | Hgt].
      * assert (Pca : precedes c a)
          by (apply (Hnth p i); [lia | assumption | assumption]).
        destruct (neighbours_shape _ _ _ _ _ _ _ _ Pca Gc (Build_group _ _ _ _ _ Ba Va0 Val Sa Ena Leada Traila Densea))
          as (C1 & C2 & C3).
        consts. lia.
      * assert (c = a) by congruence. subst c.
        assert (x <= al); [ | lia].
        destruct (Z_le_gt_dec x al) as [ | Hxl]; [assumption | exfalso].
        apply (Traila x); [consts; lia | lia | assumption].
      * destruct (lt_eq_lt_dec p j) as [[Hlt | ->] | Hgt'].
        -- lia.
        -- assert (c = b) by congruence. subst c.
           apply (Leadb x); [lia | assumption].
        -- assert (Pbc : precedes b c)
             by (apply (Hnth j p); [lia | assumption | assumption]).
           destruct (neighbours_shape _ _ _ _ _ _ _ _ Pbc (Build_group _ _ _ _ _ Bb Vb0 Vbl Sb Enb Leadb Trailb Denseb) Gc)
             as (C1 & C2 & C3).
           consts. lia.
    + destruct Hov as (y & [Hy1 Hy2] & [Hy3 Hy4]). consts. lia.
  - (* 5 to 7 lines between two violations: line [g - 4] is shared *)
    intros (f & g & Vf & Vg & Wf & Wg & Hbetween & Hlo & Hhi).
    pose proof (group_member _ _ _ _ _ f Ga Vf Wf) as Mf.
    pose proof (group_member _ _ _ _ _ g Gb Vg Wg) as Mg.
    assert (al = f).
    { destruct (Z.eq_dec al f) as [ | Hne]; [assumption | exfalso].
      apply (Hbetween al); [consts; lia | destruct Ga; assumption]. }
    assert (b0 = g).
    { destruct (Z.eq_dec b0 g) as [ | Hne]; [assumption | exfalso].
      apply (Hbetween b0); [consts; lia | destruct Gb; assumption]. }
    subst al b0. exists (g - NUM_CONTEXT_LINES).
    unfold within. consts. lia.
Qed.

Lemma C1_ranges_sorted_overlap_bounded_witness :
  sorted_by_start (_snippet_ranges 100 [10; 16]) /\
  fst (6, 14) < fst (12, 20) /\ snd (6, 14) < snd (12, 20) /\
  snd (6, 14) <= fst (12, 20) + 2 /\
  ((0 + 1 < 1)%nat -> ~ overlap (6, 14) (12, 20)) /\
  (overlap (6, 14) (12, 20) <->
   exists f g,
     In f [10; 16] /\ In g [10; 16] /\
     within (6, 14) f /\ within (12, 20) g /\
     (forall x, f < x < g -> ~ In x [10; 16]) /\
     5 <= g - f - 1 <= 7).
Proof.
  apply (C1_ranges_sorted_overlap_bounded 100 [10; 16] 0 1 (6, 14) (12, 20));
    [lia | reflexivity | reflexivity].
Defined.

(** C2: a violation lying inside a returned range has its context in the
    range: the range starts at or before [max(1, f - NUM_CONTEXT_LINES)]
    and ends at or after [min(num_src_lines, f + NUM_CONTEXT_LINES)]. *)
Theorem C2_violation_context_in_range n V s e f :
  0 <= n ->
  In (s, e) (_snippet_ranges n V) ->
  In f V -> s <= f <= e ->
  s <= Z.max 1 (f - NUM_CONTEXT_LINES) /\
  Z.min n (f + NUM_CONTEXT_LINES) <= e.
Proof.
  intros _ Hr Hf Hin.
  destruct (In_ranges_good _ _ _ Hr) as (f0 & fl & G).
  pose proof (group_member _ _ _ _ _ f G Hf Hin) as Hm.
  destruct G as [Hb _ _ Hs He _ _ _]. cbn [fst snd] in *.
  consts. lia.
Qed.

Lemma C2_violation_context_in_range_witness :
  1 <= Z.max 1 (3 - NUM_CONTEXT_LINES) /\
  Z.min 10 (3 + NUM_CONTEXT_LINES) <= 9.
Proof.
  apply (C2_violation_context_in_range 10 [2; 3; 4; 5] 1 9 3);
    [lia | left; reflexivity | right; left; reflexivity | lia].
Defined.

(** C6: every returned range is well formed: it starts at line 1 or
    later, does not end before it starts, and ends within the file. *)
Theorem C6_ranges_well_formed n V s e :
  0 <= n ->
  In (s, e) (_snippet_ranges n V) ->
  1 <= s /\ s <= e /\ e <= n.
Proof.
  intros _ Hr.
  destruct (In_ranges_good _ _ _ Hr) as (f0 & fl & G).
  pose proof (good_start_le _ _ _ _ _ G) as H.
  destruct G as [Hb _ _ _ _ _ _ _]. cbn [fst snd] in *. lia.
Qed.

Lemma C6_ranges_well_formed_witness : 1 <= 5 /\ 5 <= 10 /\ 10 <= 10.
Proof.
  apply (C6_ranges_well_formed 10 [9; 10] 5 10);
    [lia | left; reflexivity].
Defined.

(** C3: the gap test is a strict one.  Two violations with no violation
    between them are put in the same range when at most
    [MAX_GAP_IN_SNIPPET] lines separate them (so also with exactly 4), and
    in different ranges when more lines do (5 or more); and violations
    30, 31, 32, 35, 36, 60, 62 in 100 lines give (26, 40) and (56, 66). *)
Theorem C3_gap_tolerance_strict n V f g :
  1 <= f -> f < g -> g <= n ->
  In f V -> In g V ->
  (forall x, f < x < g -> ~ In x V) ->
  (g - f - 1 <= MAX_GAP_IN_SNIPPET ->
     exists r, In r (_snippet_ranges n V) /\ within r f /\ within r g) /\
  (g - f - 1 > MAX_GAP_IN_SNIPPET ->
     (exists r, In r (_snippet_ranges n V) /\ within r f) /\
     (exists r, In r (_snippet_ranges n V) /\ within r g) /\
     (forall r, In r (_snippet_ranges n V) ->
        ~ (within r f /\ within r g))) /\
  _snippet_ranges 100 [30; 31; 32; 35; 36; 60; 62] = [(26, 40); (56, 66)].
Proof.
  intros Hf Hfg Hg Vf Vg Hbetween.
  destruct (snippet_ranges_spec n V) as (_ & _ & Hcov).
  split; [ | split; [ | reflexivity]].
  - intros Hgap.
    destruct (Hcov f Vf) as (r & Hr & Hrf); [lia | ].
    exists r. split; [assumption | ]. split; [assumption | ].
    destruct (In_ranges_good _ _ _ Hr) as (f0 & fl & G).
    pose proof (group_member _ _ _ _ _ f G Vf Hrf) as Hm.
    pose proof (good_start_le _ _ _ _ _ G) as Hle.
    assert (g <= fl).
    { destruct (Z_le_gt_dec g fl) as [ | Hgt]; [assumption | exfalso].
      assert (fl = f).
      { destruct (Z.eq_dec fl f) as [ | Hne]; [assumption | exfalso].
        apply (Hbetween fl); [lia | ]. destruct G. assumption. }
      subst fl. destruct G as [_ _ _ _ _ _ Htrail _].
      apply (Htrail g); [lia | assumption | assumption]. }
    destruct Hrf. unfold within. lia.
  - intros Hgap. repeat split.
    + apply Hcov; [assumption | lia].
    + apply Hcov; [assumption | lia].
    + intros r Hr [Hrf Hrg].
      destruct (In_ranges_good _ _ _ Hr) as (f0 & fl & G).
      pose proof (group_member _ _ _ _ _ f G Vf Hrf) as Hmf.
      pose proof (group_member _ _ _ _ _ g G Vg Hrg) as Hmg.
      destruct G as [_ _ _ _ _ _ _ Hdense].
      destruct (Hdense (f + 1)) as (y & Vy & Hy & _); [lia | ].
      apply (Hbetween y); [lia | assumption].
Qed.

Lemma C3_gap_tolerance_strict_witness :
  (10 - 5 - 1 <= MAX_GAP_IN_SNIPPET ->
     exists r, In r (_snippet_ranges 20 [5; 10]) /\ within r 5 /\ within r 10) /\
  (10 - 5 - 1 > MAX_GAP_IN_SNIPPET ->
     (exists r, In r (_snippet_ranges 20 [5; 10]) /\ within r 5) /\
     (exists r, In r (_snippet_ranges 20 [5; 10]) /\ within r 10) /\
     (forall r, In r (_snippet_ranges 20 [5; 10]) ->
        ~ (within r 5 /\ within r 10))) /\
  _snippet_ranges 100 [30; 31; 32; 35; 36; 60; 62] = [(26, 40); (56, 66)].
Proof.
  apply (C3_gap_tolerance_strict 20 [5; 10] 5 10);
    [lia | lia | lia | left; reflexivity | right; left; reflexivity | ].
  intros x Hx [H | [H | []]]; lia.
Defined.

(** C4: one violation on line [L] of the file gives exactly one range,
    from [max(1, L - 4)] to [min(num_src_lines, L + 4)].  When line
    [L + 5] exists the range is stored inside the loop; otherwise the
    loop ends with the range open and the final step stores it with end
    [num_src_lines]. *)
Theorem C4_single_violation n V L :
  1 <= L <= n ->
  (forall x, In x V <-> x = L) ->
  let r := (Z.max 1 (L - NUM_CONTEXT_LINES), Z.min n (L + NUM_CONTEXT_LINES)) in
  _snippet_ranges n V = [r] /\
  (L + MAX_GAP_IN_SNIPPET + 1 <= n ->
     snippet_ranges (sweep n V) = [r] /\
     current_range (sweep n V) = (None, None)) /\
  (n <= L + MAX_GAP_IN_SNIPPET ->
     snippet_ranges (sweep n V) = [] /\
     current_range (sweep n V) = (Some (fst r), None)).
Proof.
  intros HL HV r.
  assert (VL : In L V) by (apply HV; reflexivity).
  assert (Hres : _snippet_ranges n V = [r]).
  { destruct (snippet_ranges_spec n V) as (Hg & Hs & Hcov).
    assert (Hall : forall r', In r' (_snippet_ranges n V) -> r' = r).
    { intros [s e] Hr'. rewrite Forall_forall in Hg.
      destruct (Hg _ Hr') as (f0 & fl & [_ V0 Vl Es Ee _ _ _]).
      apply HV in V0. apply HV in Vl. subst f0 fl.
      cbn [fst snd] in Es, Ee. unfold r. congruence. }
    destruct (Hcov L VL HL) as (r0 & Hr0 & _).
    destruct (_snippet_ranges n V) as [ | r1 [ | r2 rs]].
    - destruct Hr0.
    - f_equal. apply Hall. left. reflexivity.
    - exfalso. inversion Hs as [ | ? ? _ Hfa]; subst.
      inversion Hfa as [ | ? ? (Hlt & _) _]; subst.
      rewrite (Hall r1), (Hall r2) in Hlt;
        [lia | right; left; reflexivity | left; reflexivity]. }
  split; [exact Hres | ].
  unfold _snippet_ranges in Hres.
  destruct (sweep_Inv n V) as [c rs Hg Hs Hc Hcov
       | s c rs f0 fl Hg Hs Hb Ec Hc Hf Hf0 Hfl Es Hlead Htrail Hdense Hcov];
    [lia | | ]; cbn [current_range snippet_ranges] in *.
  - destruct (Hcov L VL HL) as [[] | (r0 & Hr0 & H1 & H2)].
    rewrite Forall_forall in Hc. specialize (Hc r0 Hr0).
    split; [intros _; split; [assumption | reflexivity] | ].
    intros Hn. consts. lia.
  - apply HV in Hf0. apply HV in Hfl. subst f0 fl.
    split; [intros Hn; consts; lia | ].
    intros _. split.
    + destruct rs as [ | r1 rs]; [reflexivity | ].
      destruct rs; discriminate.
    + unfold r. cbn [fst]. congruence.
Qed.

Lemma C4_single_violation_witness :
  let r := (Z.max 1 (3 - NUM_CONTEXT_LINES), Z.min 10 (3 + NUM_CONTEXT_LINES)) in
  _snippet_ranges 10 [3] = [r] /\
  (3 + MAX_GAP_IN_SNIPPET + 1 <= 10 ->
     snippet_ranges (sweep 10 [3]) = [r] /\
     current_range (sweep 10 [3]) = (None, None)) /\
  (10 <= 3 + MAX_GAP_IN_SNIPPET ->
     snippet_ranges (sweep 10 [3]) = [] /\
     current_range (sweep 10 [3]) = (Some (fst r), None)).
Proof.
  apply (C4_single_violation 10 [3] 3); [lia | ].
  intros x. split; [intros [H | []]; lia | intros ->; left; reflexivity].
Defined.






(** C7: [_shift_lines] keeps the lines at or after [start_line], in their
    order, each mapped to [line - start_line + 1], and drops the others;
    [5, 8, 9] from line 3 gives [3, 6, 7] and [1, 2] from line 3 gives
    the empty list. *)
Theorem C7_shift_lines_remap l start :
  _shift_lines l start =
    map (fun line => line - start + 1) (filter (fun line => start <=? line) l) /\
  _shift_lines [5; 8; 9] 3 = [3; 6; 7] /\
  _shift_lines [1; 2] 3 = [].
Proof.
  split; [ | split; reflexivity].
  unfold _shift_lines. induction l as [ | x l IH]; [reflexivity | ].
  cbn [flat_map filter]. rewrite Z.geb_leb.
  destruct (start <=? x); cbn [map app]; rewrite IH; reflexivity.
Qed.

(** C8: the constructor raises [ValueError] exactly when [start_line] is
    less than 1, and otherwise returns the snippet holding its four
    arguments. *)
Theorem C8_init_raises_iff_start_below_one src_str src_filename start_line V :
  ((exists msg, __init__ src_str src_filename start_line V
                = Raise (ValueError msg)) <-> start_line < 1) /\
  (__init__ src_str src_filename start_line V
     = Ok (Build src_str src_filename start_line V) <-> 1 <= start_line).
Proof.
  unfold __init__. destruct (Z.ltb_spec start_line 1) as [Hlt | Hge].
  - split; split.
    + intros _. assumption.
    + intros _. eexists. reflexivity.
    + discriminate.
    + lia.
  - split; split.
    + intros (msg & H). discriminate.
    + lia.
    + intros _. assumption.
    + reflexivity.
Qed.

(** C9: duplicates in the violation list change nothing: the list and
    the list without its duplicates give the same ranges. *)
Theorem C9_duplicates_have_no_effect n V :
  _snippet_ranges n V = _snippet_ranges n (nodup Z.eq_dec V).
Proof.
  apply snippet_ranges_ext. intros x. symmetry. apply nodup_In.
Qed.

Lemma comprehension_Ok {A B} (f : A -> result B) (g : A -> B) (l : list A) :
  (forall x, In x l -> f x = Ok (g x)) ->
  comprehension f l = Ok (map g l).
Proof.
  induction l as [ | x l IH]; intros H; [reflexivity | ].
  cbn [comprehension map]. rewrite (H x) by (left; reflexivity).
  cbn [bind]. rewrite IH by (intros y Hy; apply H; right; assumption).
  reflexivity.
Qed.

(** C10: [load_snippets] never reaches the [ValueError] of the
    constructor: every range of [_snippet_ranges] starts at line 1 or
    later, so for a readable file every construction succeeds and the
    call returns one snippet per range, starting where the range does. *)
Theorem C10_load_snippets_never_raises fs src_path V contents :
  fs src_path = Some contents ->
  let ranges :=
    _snippet_ranges (Z.of_nat (List.length (split_lines contents))) V in
  Forall (fun r => 1 <= fst r) ranges /\
  exists snippets,
    load_snippets fs src_path V = Ok snippets /\
    map _start_line snippets = map fst ranges.
Proof.
  intros Hfs ranges.
  assert (Hge : Forall (fun r => 1 <= fst r) ranges).
  { apply Forall_forall. intros r Hr.
    destruct (In_ranges_good _ _ _ Hr) as (f0 & fl & G).
    apply (good_start_le _ _ _ _ _ G). }
  split; [assumption | ].
  unfold load_snippets. rewrite Hfs. fold ranges.
  set (lines := split_lines contents).
  exists (map (fun r : Z * Z =>
                 Build (join_lines (slice lines (fst r - 1) (snd r)))
                       src_path (fst r) V) ranges).
  split.
  - apply comprehension_Ok. intros [s e] Hr. cbn [fst snd].
    rewrite Forall_forall in Hge. specialize (Hge _ Hr). cbn [fst] in Hge.
    unfold __init__. destruct (Z.ltb_spec s 1); [lia | reflexivity].
  - rewrite map_map. reflexivity.
Qed.

Lemma C10_load_snippets_never_raises_witness :
  let ranges :=
    _snippet_ranges (Z.of_nat (List.length (split_lines "x = 1"%string))) [1] in
  Forall (fun r => 1 <= fst r) ranges /\
  exists snippets,
    load_snippets (fun _ => Some "x = 1"%string) "a.py"%string [1] = Ok snippets /\
    map _start_line snippets = map fst ranges.
Proof.
  apply (C10_load_snippets_never_raises
           (fun _ => Some "x = 1"%string) "a.py"%string [1] "x = 1"%string).
  reflexivity.
Defined.

(** ** Further properties of [_snippet_ranges] *)

Lemma In_range_bounds n x : In x (range 1 (n + 1)) -> 1 <= x <= n.
Proof.
  unfold range. intros H. apply in_map_iff in H.
  destruct H as (i & <- & Hi). apply in_seq in Hi. lia.
Qed.

Lemma fold_left_ext_in {A B} (f g : A -> B -> A) (l : list B) :
  (forall a b, In b l -> f a b = g a b) ->
  forall a, fold_left f l a = fold_left g l a.
Proof.
  induction l as [ | b l IH]; intros H a; simpl; [reflexivity | ].
  rewrite H by (left; reflexivity).
  apply IH. intros a' b' Hb'. apply H. right. assumption.
Qed.

Lemma loop_body_contains n V V' st line :
  contains V line = contains V' line ->
  loop_body n V st line = loop_body n V' st line.
Proof.
  intros E. unfold loop_body. rewrite E. reflexivity.
Qed.

(** Only the membership of the lines of the file is read. *)
Lemma snippet_ranges_ext_in_file n V V' :
  (forall x, 1 <= x <= n -> (In x V <-> In x V')) ->
  _snippet_ranges n V = _snippet_ranges n V'.
Proof.
  intros HV. unfold _snippet_ranges, sweep.
  rewrite (fold_left_ext_in (loop_body n V) (loop_body n V')); [reflexivity | ].
  intros st line Hline. apply loop_body_contains.
  apply In_range_bounds in Hline. specialize (HV line Hline).
  destruct (contains V' line) eqn:E'.
  - apply contains_In. apply HV. apply contains_In. assumption.
  - apply contains_not_In. rewrite HV. apply contains_not_In. assumption.
Qed.

Lemma ranges_bounds n V r :
  In r (_snippet_ranges n V) -> 1 <= fst r /\ fst r <= snd r /\ snd r <= n.
Proof.
  intros Hr. destruct (In_ranges_good _ _ _ Hr) as (f0 & fl & G).
  pose proof (good_start_le _ _ _ _ _ G). destruct G as [Hb _ _ _ _ _ _ _].
  lia.
Qed.

(** X1: every violation that is a line of the file lies in one of the
    returned ranges. *)
Theorem X1_every_violation_is_in_a_range n V x :
  In x V -> 1 <= x <= n ->
  exists r, In r (_snippet_ranges n V) /\ within r x.
Proof.
  intros Hin Hx. destruct (snippet_ranges_spec n V) as (_ & _ & Hcov).
  apply Hcov; assumption.
Qed.

Lemma X1_every_violation_is_in_a_range_witness :
  exists r, In r (_snippet_ranges 10 [9; 10]) /\ within r 10.
Proof.
  apply (X1_every_violation_is_in_a_range 10 [9; 10] 10);
    [right; left; reflexivity | lia].
Defined.

(** X2: a returned range has no padding beyond its context: it holds a
    first violation [f0] and a last violation [fl], starts exactly
    [NUM_CONTEXT_LINES] before [f0] (or at line 1), ends exactly
    [NUM_CONTEXT_LINES] after [fl] (or at the last line), and every
    violation in it lies between [f0] and [fl]. *)
Theorem X2_range_is_tight_around_violations n V r :
  In r (_snippet_ranges n V) ->
  exists f0 fl,
    In f0 V /\ In fl V /\ 1 <= f0 /\ f0 <= fl /\ fl <= n /\
    fst r = Z.max 1 (f0 - NUM_CONTEXT_LINES) /\
    snd r = Z.min n (fl + NUM_CONTEXT_LINES) /\
    forall x, In x V -> within r x -> f0 <= x <= fl.
Proof.
  intros Hr. destruct (In_ranges_good _ _ _ Hr) as (f0 & fl & G).
  exists f0, fl. pose proof (fun x => group_member _ _ _ _ _ x G) as Hm.
  destruct G as [Hb V0 Vl Hs He _ _ _].
  repeat split; try assumption; try lia; apply Hm; assumption.
Qed.

Lemma X2_range_is_tight_around_violations_witness :
  exists f0 fl,
    In f0 [2; 3; 4; 5] /\ In fl [2; 3; 4; 5] /\
    1 <= f0 /\ f0 <= fl /\ fl <= 10 /\
    fst (1, 9) = Z.max 1 (f0 - NUM_CONTEXT_LINES) /\
    snd (1, 9) = Z.min 10 (fl + NUM_CONTEXT_LINES) /\
    forall x, In x [2; 3; 4; 5] -> within (1, 9) x -> f0 <= x <= fl.
Proof.
  apply (X2_range_is_tight_around_violations 10 [2; 3; 4; 5] (1, 9)).
  left. reflexivity.
Defined.

(** X3: violation numbers that are not lines of the file (below 1 or
    above [num_src_lines]) have no effect on the ranges. *)
Theorem X3_violations_outside_file_are_inert n V :
  _snippet_ranges n V =
  _snippet_ranges n (filter (fun x => (1 <=? x) && (x <=? n)) V).
Proof.
  apply snippet_ranges_ext_in_file. intros x Hx.
  rewrite filter_In, andb_true_iff, !Z.leb_le. tauto.
Qed.

(** X4: no range is returned exactly when no violation is a line of the
    file. *)
Theorem X4_no_range_iff_no_violation_in_file n V :
  _snippet_ranges n V = [] <-> (forall x, In x V -> ~ (1 <= x <= n)).
Proof.
  split.
  - intros E x Hin Hx.
    destruct (snippet_ranges_spec n V) as (_ & _ & Hcov).
    destruct (Hcov x Hin Hx) as (r & Hr & _).
    rewrite E in Hr. destruct Hr.
  - intros Hnone.
    destruct (_snippet_ranges n V) as [ | r rs] eqn:E; [reflexivity | exfalso].
    assert (Hr : In r (_snippet_ranges n V)) by (rewrite E; left; reflexivity).
    destruct (In_ranges_good _ _ _ Hr) as (f0 & fl & [Hb V0 _ _ _ _ _ _]).
    apply (Hnone f0 V0). lia.
Qed.

(** X5: the ranges depend on the violation list only through the lines
    of the file it contains: two lists with the same members among
    lines 1 to [num_src_lines], in any order and with any repetition,
    give the same ranges. *)
Theorem X5_same_members_same_ranges n V V' :
  (forall x, 1 <= x <= n -> (In x V <-> In x V')) ->
  _snippet_ranges n V = _snippet_ranges n V'.
Proof.
  apply snippet_ranges_ext_in_file.
Qed.

Lemma X5_same_members_same_ranges_witness :
  _snippet_ranges 10 [3; 2; 11; 2] = _snippet_ranges 10 [2; 3].
Proof.
  apply (X5_same_members_same_ranges 10 [3; 2; 11; 2] [2; 3]).
  intros x Hx. split; intros H; cbn [In] in *; lia.
Defined.

(** ** Lines of a text: [split] and [join] *)

Lemma split_lines_length s :
  List.length (split_lines s) = S (count_LF s).
Proof.
  induction s as [ | c s IH]; [reflexivity | ].
  cbn [split_lines count_LF]. destruct (Ascii.eqb c LF).
  - cbn [List.length]. rewrite IH. reflexivity.
  - destruct (split_lines s) as [ | seg segs]; [discriminate | ].
    cbn [List.length] in *. lia.
Qed.

Lemma split_lines_no_LF s : Forall no_LF (split_lines s).
Proof.
  induction s as [ | c s IH]; [repeat constructor | ].
  cbn [split_lines]. destruct (Ascii.eqb c LF) eqn:E.
  - constructor; [exact I | assumption].
  - destruct (split_lines s) as [ | seg segs].
    + constructor; [cbn; auto | constructor].
    + inversion IH; subst. constructor; [cbn; auto | assumption].
Qed.

(** Joining the lines of a text gives the text back. *)
Lemma join_split_lines s : join_lines (split_lines s) = s.
Proof.
  unfold join_lines. induction s as [ | c s IH]; [reflexivity | ].
  cbn [split_lines]. pose proof (split_lines_length s) as Hlen.
  destruct (Ascii.eqb_spec c LF) as [-> | Hne].
  - destruct (split_lines s) as [ | seg segs]; [discriminate | ].
    transitivity (String LF (String.concat (String LF EmptyString) (seg :: segs)));
      [reflexivity | f_equal; exact IH].
  - destruct (split_lines s) as [ | seg segs]; [discriminate | ].
    transitivity (String c (String.concat (String LF EmptyString) (seg :: segs)));
      [destruct segs; reflexivity | f_equal; exact IH].
Qed.

Lemma split_lines_single x : no_LF x -> split_lines x = [x].
Proof.
  induction x as [ | c x IH]; [reflexivity | ].
  intros [E Hx]. cbn [split_lines]. rewrite E, (IH Hx). reflexivity.
Qed.

Lemma split_lines_app_LF x rest :
  no_LF x ->
  split_lines (x ++ String LF rest) = x :: split_lines rest.
Proof.
  induction x as [ | c x IH]; intros Hx.
  - cbn [append split_lines]. rewrite Ascii.eqb_refl. reflexivity.
  - destruct Hx as [E Hx]. cbn [append split_lines].
    rewrite E, (IH Hx). reflexivity.
Qed.

(** Splitting the join of lines without line feed gives the lines back. *)
Lemma split_join_lines l :
  l <> [] -> Forall no_LF l -> split_lines (join_lines l) = l.
Proof.
  unfold join_lines. induction l as [ | x l IH]; [congruence | ].
  intros _ Hl. inversion Hl as [ | ? ? Hx Hl']; subst.
  destruct l as [ | y l].
  - cbn [String.concat]. apply split_lines_single. assumption.
  - change (String.concat (String LF EmptyString) (x :: y :: l))
      with (x ++ String LF (String.concat (String LF EmptyString) (y :: l)))%string.
    rewrite split_lines_app_LF by assumption.
    rewrite IH; [reflexivity | discriminate | assumption].
Qed.

(** ** Slices of the lines of a file *)

Lemma Forall_firstn {A} (P : A -> Prop) n (l : list A) :
  Forall P l -> Forall P (firstn n l).
Proof.
  intros H. rewrite <- (firstn_skipn n l) in H.
  apply Forall_app in H. apply H.
Qed.

Lemma Forall_skipn {A} (P : A -> Prop) n (l : list A) :
  Forall P l -> Forall P (skipn n l).
Proof.
  intros H. rewrite <- (firstn_skipn n l) in H.
  apply Forall_app in H. apply H.
Qed.

Lemma slice_in_bounds {A} (l : list A) s e :
  1 <= s -> s <= e -> e <= Z.of_nat (List.length l) ->
  slice l (s - 1) e =
  firstn (Z.to_nat (e - s + 1)) (skipn (Z.to_nat (s - 1)) l).
Proof.
  intros Hs Hse He. unfold slice, slice_index.
  destruct (Z.ltb_spec (s - 1) 0); [lia | ].
  destruct (Z.ltb_spec e 0); [lia | ].
  rewrite !Z.min_l by lia. f_equal. lia.
Qed.

Lemma file_lines_length (src_lines : list string) r :
  1 <= fst r -> fst r <= snd r -> snd r <= Z.of_nat (List.length src_lines) ->
  Z.of_nat (List.length (file_lines src_lines r)) = snd r - fst r + 1.
Proof.
  intros Hs Hse He. unfold file_lines.
  rewrite slice_in_bounds by assumption.
  rewrite length_firstn, length_skipn. lia.
Qed.

Lemma file_lines_Forall (P : string -> Prop) (src_lines : list string) r :
  Forall P src_lines -> Forall P (file_lines src_lines r).
Proof.
  intros H. unfold file_lines, slice.
  apply Forall_firstn, Forall_skipn. assumption.
Qed.

Lemma file_lines_nth_error (src_lines : list string) r k :
  1 <= fst r -> snd r <= Z.of_nat (List.length src_lines) ->
  within r k ->
  nth_error (file_lines src_lines r) (Z.to_nat (k - fst r)) =
  nth_error src_lines (Z.to_nat (k - 1)).
Proof.
  intros Hs He [H1 H2]. unfold file_lines.
  rewrite slice_in_bounds by lia.
  rewrite nth_error_firstn, nth_error_skipn.
  destruct (Nat.ltb_spec (Z.to_nat (k - fst r)) (Z.to_nat (snd r - fst r + 1)));
    [ | lia].
  f_equal. lia.
Qed.

Lemma file_lines_whole (src_lines : list string) :
  file_lines src_lines (1, Z.of_nat (List.length src_lines)) = src_lines.
Proof.
  unfold file_lines, slice, slice_index. cbn [fst snd].
  change (1 - 1) with 0.
  destruct (Z.ltb_spec 0 0); [lia | ].
  destruct (Z.ltb_spec (Z.of_nat (List.length src_lines)) 0); [lia | ].
  rewrite Z.min_l by lia. rewrite Z.min_l by lia.
  cbn [Z.to_nat skipn]. rewrite Z.sub_0_r, Nat2Z.id. apply firstn_all.
Qed.

(** The lines of a snippet cut out of a file are the lines of the file. *)
Lemma split_join_file_lines contents r :
  1 <= fst r -> fst r <= snd r ->
  snd r <= Z.of_nat (List.length (split_lines contents)) ->
  split_lines (join_lines (file_lines (split_lines contents) r)) =
  file_lines (split_lines contents) r.
Proof.
  intros Hs Hse He. apply split_join_lines.
  - pose proof (file_lines_length (split_lines contents) r Hs Hse He) as Hlen.
    destruct (file_lines (split_lines contents) r); [cbn in Hlen; lia | discriminate].
  - apply file_lines_Forall, split_lines_no_LF.
Qed.

(** ** What [load_snippets] returns *)

(** The snippet [load_snippets] builds for the range [r]. *)
Lemma load_snippets_Ok fs src_path V contents :
  fs src_path = Some contents ->
  load_snippets fs src_path V =
  Ok (map (fun r => Build (join_lines (file_lines (split_lines contents) r))
                          src_path (fst r) V)
          (_snippet_ranges (Z.of_nat (List.length (split_lines contents))) V)).
Proof.
  intros Hfs. unfold load_snippets. rewrite Hfs.
  apply comprehension_Ok. intros [s e] Hr.
  apply ranges_bounds in Hr. cbn [fst snd] in *.
  unfold __init__, file_lines. cbn [fst snd].
  destruct (Z.ltb_spec s 1); [lia | reflexivity].
Qed.

Lemma loaded_line_range contents src_path V r :
  1 <= fst r -> fst r <= snd r ->
  snd r <= Z.of_nat (List.length (split_lines contents)) ->
  line_range (Build (join_lines (file_lines (split_lines contents) r))
                    src_path (fst r) V) = r.
Proof.
  intros Hs Hse He. unfold line_range. cbn [_src_str _start_line].
  rewrite split_join_file_lines by assumption.
  rewrite file_lines_length by assumption.
  destruct r as [s e]. cbn [fst snd]. f_equal. lia.
Qed.

Lemma loaded_snippet_inv fs src_path V contents snippets sn :
  fs src_path = Some contents ->
  load_snippets fs src_path V = Ok snippets ->
  In sn snippets ->
  exists r,
    In r (_snippet_ranges (Z.of_nat (List.length (split_lines contents))) V) /\
    sn = Build (join_lines (file_lines (split_lines contents) r))
               src_path (fst r) V /\
    line_range sn = r.
Proof.
  intros Hfs Hload Hsn.
  rewrite (load_snippets_Ok _ _ _ _ Hfs) in Hload.
  injection Hload as <-. apply in_map_iff in Hsn.
  destruct Hsn as (r & <- & Hr). exists r.
  split; [assumption | ]. split; [reflexivity | ].
  apply ranges_bounds in Hr. apply loaded_line_range; lia.
Qed.

(** X6: for a readable file, [load_snippets] returns snippets whose
    [line_range]s are, in order, the ranges of [_snippet_ranges] for the
    number of lines of the file. *)
Theorem X6_loaded_snippets_span_the_ranges fs src_path V contents :
  fs src_path = Some contents ->
  exists snippets,
    load_snippets fs src_path V = Ok snippets /\
    map line_range snippets =
    _snippet_ranges (Z.of_nat (List.length (split_lines contents))) V.
Proof.
  intros Hfs. eexists. split; [apply load_snippets_Ok; exact Hfs | ].
  rewrite map_map. rewrite <- map_id. apply map_ext_in.
  intros r Hr. apply ranges_bounds in Hr. apply loaded_line_range; lia.
Qed.

Lemma X6_loaded_snippets_span_the_ranges_witness :
  exists snippets,
    load_snippets (fun _ => Some "a"%string) "f.py"%string [1] = Ok snippets /\
    map line_range snippets =
    _snippet_ranges (Z.of_nat (List.length (split_lines "a"%string))) [1].
Proof.
  apply (X6_loaded_snippets_span_the_ranges
           (fun _ => Some "a"%string) "f.py"%string [1] "a"%string).
  reflexivity.
Defined.

(** X7: the text of a loaded snippet is cut out of the file line by
    line: for every line number [k] in the snippet's [line_range], line
    [k] exists in the file and is row [k - start] (counted from 0) of the
    snippet's text. *)
Theorem X7_loaded_snippet_rows_are_file_lines
        fs src_path V contents snippets sn k :
  fs src_path = Some contents ->
  load_snippets fs src_path V = Ok snippets ->
  In sn snippets ->
  within (line_range sn) k ->
  1 <= k <= Z.of_nat (List.length (split_lines contents)) /\
  nth_error (split_lines (text sn)) (Z.to_nat (k - fst (line_range sn))) =
  nth_error (split_lines contents) (Z.to_nat (k - 1)).
Proof.
  intros Hfs Hload Hsn Hk.
  destruct (loaded_snippet_inv _ _ _ _ _ _ Hfs Hload Hsn) as (r & Hr & -> & Er).
  rewrite Er in *. apply ranges_bounds in Hr. destruct Hk as [H1 H2].
  split; [lia | ].
  unfold text. cbn [_src_str]. rewrite split_join_file_lines by lia.
  apply file_lines_nth_error; [lia | lia | split; assumption].
Qed.

Lemma X7_loaded_snippet_rows_are_file_lines_witness :
  1 <= 1 <= Z.of_nat (List.length (split_lines "a"%string)) /\
  nth_error (split_lines (text (Build "a" "f.py" 1 [1])))
            (Z.to_nat (1 - fst (line_range (Build "a" "f.py" 1 [1])))) =
  nth_error (split_lines "a"%string) (Z.to_nat (1 - 1)).
Proof.
  apply (X7_loaded_snippet_rows_are_file_lines
           (fun _ => Some "a"%string) "f.py"%string [1] "a"%string
           [Build "a" "f.py" 1 [1]]);
    [reflexivity | reflexivity | left; reflexivity | ].
  unfold within. cbn. lia.
Defined.

(** X8: a loaded snippet whose [line_range] is the whole file carries the
    contents of the file unchanged. *)
Theorem X8_whole_file_snippet_is_the_contents
        fs src_path V contents snippets sn :
  fs src_path = Some contents ->
  load_snippets fs src_path V = Ok snippets ->
  In sn snippets ->
  line_range sn = (1, Z.of_nat (List.length (split_lines contents))) ->
  text sn = contents.
Proof.
  intros Hfs Hload Hsn Hwhole.
  destruct (loaded_snippet_inv _ _ _ _ _ _ Hfs Hload Hsn) as (r & Hr & -> & Er).
  rewrite Er in Hwhole. subst r. unfold text. cbn [_src_str].
  rewrite file_lines_whole. apply join_split_lines.
Qed.

Lemma X8_whole_file_snippet_is_the_contents_witness :
  text (Build "a" "f.py" 1 [1]) = "a"%string.
Proof.
  apply (X8_whole_file_snippet_is_the_contents
           (fun _ => Some "a"%string) "f.py"%string [1] "a"%string
           [Build "a" "f.py" 1 [1]]);
    [reflexivity | reflexivity | left; reflexivity | reflexivity].
Defined.


(** X10: a constructed snippet spans the lines from [start_line] to
    [start_line] plus the number of line feeds of its text, so its
    [line_range] starts at line 1 or later and never ends before it
    starts (an empty text spans one line). *)
Theorem X10_line_range_counts_line_feeds src_str src_filename start_line V self :
  __init__ src_str src_filename start_line V = Ok self ->
  line_range self = (start_line, start_line + Z.of_nat (count_LF src_str)) /\
  1 <= fst (line_range self) <= snd (line_range self).
Proof.
  unfold __init__. destruct (Z.ltb_spec start_line 1) as [ | Hge]; [discriminate | ].
  intros H. injection H as <-.
  unfold line_range. cbn [_src_str _start_line fst snd].
  rewrite split_lines_length. split; [f_equal; lia | lia].
Qed.

Lemma X10_line_range_counts_line_feeds_witness :
  line_range (Build "a" "f.py" 4 []) =
    (4, 4 + Z.of_nat (count_LF "a"%string)) /\
  1 <= fst (line_range (Build "a" "f.py" 4 []))
    <= snd (line_range (Build "a" "f.py" 4 [])).
Proof.
  apply (X10_line_range_counts_line_feeds "a"%string "f.py"%string 4 []).
  reflexivity.
Defined.

(** ** Further properties of [_shift_lines] and of [html] *)

Lemma shift_lines_In l s y :
  In y (_shift_lines l s) <-> 1 <= y /\ In (y + s - 1) l.
Proof.
  unfold _shift_lines. rewrite in_flat_map. split.
  - intros (x & Hx & Hy). destruct (Z.geb_spec x s) as [Hge | Hlt].
    + destruct Hy as [<- | []]. split; [lia | ].
      replace (x - s + 1 + s - 1) with x by lia. assumption.
    + destruct Hy.
  - intros [Hy Hin]. exists (y + s - 1). split; [assumption | ].
    destruct (Z.geb_spec (y + s - 1) s) as [Hge | Hlt]; [ | lia].
    left. lia.
Qed.

(** X11: a number is in the result of [_shift_lines] exactly when it is
    at least 1 and the line it stands for, [y + start_line - 1], is in
    the input: lines before [start_line] leave no trace, and no result
    is below 1. *)
Theorem X11_shift_lines_membership l start y :
  In y (_shift_lines l start) <-> 1 <= y /\ In (y + start - 1) l.
Proof.
  apply shift_lines_In.
Qed.

(** X12: shifting back undoes [_shift_lines] on the lines it keeps:
    adding [start_line - 1] to every result gives the input lines at or
    after [start_line], in their order; when no input line is before
    [start_line], it gives the input list itself. *)
Theorem X12_shift_lines_round_trip l start :
  map (fun y => y + start - 1) (_shift_lines l start) =
    filter (fun x => start <=? x) l /\
  ((forall x, In x l -> start <= x) ->
   map (fun y => y + start - 1) (_shift_lines l start) = l).
Proof.
  assert (E : map (fun y => y + start - 1) (_shift_lines l start) =
              filter (fun x => start <=? x) l).
  { unfold _shift_lines. induction l as [ | x l IH]; [reflexivity | ].
    cbn [flat_map filter]. rewrite Z.geb_leb.
    destruct (start <=? x); cbn [app map]; rewrite IH; [f_equal; lia | reflexivity]. }
  split; [exact E | ].
  intros Hall. rewrite E. clear E.
  induction l as [ | x l IH]; [reflexivity | ].
  cbn [filter]. destruct (Z.leb_spec start x) as [ | Hlt].
  - f_equal. apply IH. intros y Hy. apply Hall. right. assumption.
  - specialize (Hall x (or_introl eq_refl)). lia.
Qed.

(** X13: two shifts compose into one: for [b] at least 1, shifting by
    [a] and then by [b] is shifting by [a + b - 1]. *)
Theorem X13_shift_lines_compose l a b :
  1 <= b ->
  _shift_lines (_shift_lines l a) b = _shift_lines l (a + b - 1).
Proof.
  intros Hb. unfold _shift_lines.
  induction l as [ | x l IH]; [reflexivity | ].
  cbn [flat_map]. rewrite flat_map_app, IH.
  destruct (Z.geb_spec x a) as [Hxa | Hxa]; cbn [flat_map app].
  - destruct (Z.geb_spec (x - a + 1) b) as [H1 | H1];
      destruct (Z.geb_spec x (a + b - 1)) as [H2 | H2]; try lia.
    + cbn [app]. f_equal. lia.
    + reflexivity.
  - destruct (Z.geb_spec x (a + b - 1)) as [H2 | H2]; [lia | reflexivity].
Qed.

Lemma X13_shift_lines_compose_witness :
  _shift_lines (_shift_lines [5; 8; 9] 3) 4 = _shift_lines [5; 8; 9] (3 + 4 - 1).
Proof.
  apply (X13_shift_lines_compose [5; 8; 9] 3 4). lia.
Defined.

(** X14: in the formatter [html] builds for a loaded snippet, the line
    numbering starts at the first line of the snippet's range, a line
    [k] of that range is highlighted (as row [k - start + 1]) exactly
    when [k] is a violation, and at least one row of the snippet is
    highlighted. *)
Theorem X14_html_highlights_the_violations
        fs src_path V contents snippets sn :
  fs src_path = Some contents ->
  load_snippets fs src_path V = Ok snippets ->
  In sn snippets ->
  linenostart (html_formatter sn) = fst (line_range sn) /\
  (forall k, within (line_range sn) k ->
     (In (k - linenostart (html_formatter sn) + 1)
         (hl_lines (html_formatter sn)) <-> In k V)) /\
  (exists k, within (line_range sn) k /\
     In (k - linenostart (html_formatter sn) + 1)
        (hl_lines (html_formatter sn))).
Proof.
  intros Hfs Hload Hsn.
  destruct (loaded_snippet_inv _ _ _ _ _ _ Hfs Hload Hsn) as (r & Hr & -> & Er).
  rewrite Er. cbn [html_formatter linenostart hl_lines _start_line _violation_lines].
  assert (Hrow : forall k, fst r <= k ->
            (In (k - fst r + 1) (_shift_lines V (fst r)) <-> In k V)).
  { intros k Hk. rewrite shift_lines_In.
    replace (k - fst r + 1 + fst r - 1) with k by lia.
    split; [tauto | intros H; split; [lia | assumption]]. }
  split; [reflexivity | ]. split.
  - intros k [Hk _]. apply Hrow. assumption.
  - destruct (In_ranges_good _ _ _ Hr) as (f0 & fl & G).
    pose proof (good_start_le _ _ _ _ _ G) as Hle.
    destruct G as [Hb V0 _ _ _ _ _ _].
    exists f0. split; [unfold within; lia | ].
    apply Hrow; [lia | assumption].
Qed.

Lemma X14_html_highlights_the_violations_witness :
  linenostart (html_formatter (Build "a" "f.py" 1 [1]))
    = fst (line_range (Build "a" "f.py" 1 [1])) /\
  (forall k, within (line_range (Build "a" "f.py" 1 [1])) k ->
     (In (k - linenostart (html_formatter (Build "a" "f.py" 1 [1])) + 1)
         (hl_lines (html_formatter (Build "a" "f.py" 1 [1]))) <-> In k [1])) /\
  (exists k, within (line_range (Build "a" "f.py" 1 [1])) k /\
     In (k - linenostart (html_formatter (Build "a" "f.py" 1 [1])) + 1)
        (hl_lines (html_formatter (Build "a" "f.py" 1 [1])))).
Proof.
  apply (X14_html_highlights_the_violations
           (fun _ => Some "a"%string) "f.py"%string [1] "a"%string
           [Build "a" "f.py" 1 [1]]);
    [reflexivity | reflexivity | left; reflexivity].
Defined.
